(** * HWCPipe: measurement values and the PMU sampling instrument

    A shallow embedding of [measurement.h] (struct [Measurement] and its
    nested struct [Value]) and of [pmu_counter.cpp] (class [PMUCounter]),
    followed by the properties of these two files.

    Conventions of the embedding:
    - [long long] is a 64-bit two's complement integer.  It is carried as a
      [Z]; the results of [+], [-] and [*] are wrapped into the signed range
      (the result the targets compute; the language leaves signed overflow
      undefined).  [/] has no result where the language defines none.
    - [double] is IEEE 754 binary64, carried as a [spec_float] with
      precision 53 and maximal exponent 1024, rounding to nearest even.
      The payload and the sign of a NaN are not tracked.
    - the anonymous union [v] of [Value] is its eight bytes of storage,
      carried as an unsigned 64-bit [Z]; the two members are two views of
      these bytes.
    - an exception is an explicit outcome of a statement. *)

From Stdlib Require Import ZArith Lia Bool Ascii String List.
From Stdlib Require Import Floats.SpecFloat.
From stdpp Require Import base gmap strings.

Local Open Scope Z_scope.

(** ** [long long] *)

Module Int64.

Definition modulus : Z := 2 ^ 64.
Definition half_modulus : Z := 2 ^ 63.
Definition min_signed : Z := - half_modulus.
Definition max_signed : Z := half_modulus - 1.

Definition in_range (n : Z) : Prop := min_signed <= n <= max_signed.

(** The eight bytes that hold [n]. *)
Definition to_bits (n : Z) : Z := n mod modulus.

(** The signed integer held by eight bytes. *)
Definition of_bits (bits : Z) : Z :=
  let u := bits mod modulus in
  if u <? half_modulus then u else u - modulus.

(** Reduction into the signed range. *)
Definition wrap (n : Z) : Z := of_bits (to_bits n).

Definition add (a b : Z) : Z := wrap (a + b).
Definition sub (a b : Z) : Z := wrap (a - b).
Definition mul (a b : Z) : Z := wrap (a * b).

(** [a / b] truncates towards zero.  The language defines no result for a
    zero divisor, nor for the one quotient that does not fit. *)
Definition div (a b : Z) : option Z :=
  if b =? 0 then None
  else if (a =? min_signed) && (b =? -1) then None
  else Some (Z.quot a b).

Definition ltb (a b : Z) : bool := a <? b.

End Int64.

(** ** [double] *)

Module Double.

Definition prec : Z := 53.
Definition emax : Z := 1024.

Definition double : Type := spec_float.

Definition add : double -> double -> double := SFadd prec emax.
Definition sub : double -> double -> double := SFsub prec emax.
Definition mul : double -> double -> double := SFmul prec emax.
Definition div : double -> double -> double := SFdiv prec emax.
Definition sqrt : double -> double := SFsqrt prec emax.
Definition ltb : double -> double -> bool := SFltb.
Definition eqb : double -> double -> bool := SFeqb.

(** Conversion of an integer: the nearest double, ties to even. *)
Definition of_Z (n : Z) : double := binary_normalize prec emax n 0 false.

(** The value of a decimal literal [n / d]: the nearest double, since
    [n] and [d] below are converted exactly and [div] rounds once. *)
Definition of_ratio (n d : Z) : double := div (of_Z n) (of_Z d).

Definition is_nan (x : double) : bool :=
  match x with S754_nan => true | _ => false end.
Definition is_infinite (x : double) : bool :=
  match x with S754_infinity _ => true | _ => false end.
Definition is_zero (x : double) : bool :=
  match x with S754_zero _ => true | _ => false end.
Definition is_finite (x : double) : bool :=
  match x with S754_zero _ | S754_finite _ _ _ => true | _ => false end.

(** A number other than zero: finite and not zero, or an infinity. *)
Definition is_nonzero_number (x : double) : bool :=
  negb (is_zero x) && negb (is_nan x).

(** *** The eight bytes of a double

    Bit 63 is the sign, bits 62..52 the biased exponent, bits 51..0 the
    fraction.  A NaN is stored as the default quiet NaN. *)

Definition sign_bit (s : bool) : Z := if s then 2 ^ 63 else 0.
Definition fraction_bits : Z := 52.
Definition hidden_bit : Z := 2 ^ 52.
Definition exponent_mask : Z := 2047.
Definition exponent_bias : Z := 1075.

Definition to_bits (x : double) : Z :=
  match x with
  | S754_zero s => sign_bit s
  | S754_infinity s => sign_bit s + exponent_mask * hidden_bit
  | S754_nan => exponent_mask * hidden_bit + 2 ^ 51
  | S754_finite s m e =>
      if Z.pos m <? hidden_bit
      then sign_bit s + Z.pos m
      else sign_bit s + (e + exponent_bias) * hidden_bit + (Z.pos m - hidden_bit)
  end.

Definition of_bits (bits : Z) : double :=
  let u := bits mod 2 ^ 64 in
  let s := Z.testbit u 63 in
  let e := Z.land (Z.shiftr u fraction_bits) exponent_mask in
  let f := Z.land u (hidden_bit - 1) in
  if e =? 0 then
    match f with
    | Z.pos m => S754_finite s m (1 - exponent_bias)
    | _ => S754_zero s
    end
  else if e =? exponent_mask then
    if f =? 0 then S754_infinity s else S754_nan
  else
    match f + hidden_bit with
    | Z.pos m => S754_finite s m (e - exponent_bias)
    | _ => S754_nan
    end.

End Double.

(** ** Decimal text *)

Module Text.

Definition digit_char (d : Z) : ascii := ascii_of_nat (48 + Z.to_nat d).

(** The digits of a natural number, least significant first produced,
    most significant first stored: one division by ten per digit. *)
Fixpoint digits_of (fuel : nat) (n : Z) (acc : string) : string :=
  let acc' := String (digit_char (n mod 10)) acc in
  match fuel with
  | O => acc'
  | S k => if n <? 10 then acc' else digits_of k (n / 10) acc'
  end.

(** [Z.log2 n] divisions are enough: [n < 2 ^ (log2 n + 1)]. *)
Definition decimal (n : Z) : string := digits_of (Z.to_nat (Z.log2 n)) n "".

(** What the stream inserts for a [long long]: a minus sign for a negative
    number, then the digits.  The stream's precision and [fixed] flag do
    not apply to integers; the stream has the classic locale, which
    groups no digits. *)
Definition put_integer (n : Z) : string :=
  if n <? 0 then String "-" (decimal (- n)) else decimal n.

Definition digit_value (c : ascii) : option Z :=
  let k := Z.of_nat (nat_of_ascii c) in
  if (48 <=? k) && (k <=? 57) then Some (k - 48) else None.

Fixpoint parse_digits (s : string) (acc : Z) : option Z :=
  match s with
  | EmptyString => Some acc
  | String c rest =>
      match digit_value c with
      | Some d => parse_digits rest (10 * acc + d)
      | None => None
      end
  end.

(** Reading a decimal integer back: an optional minus sign and at least
    one digit, nothing else. *)
Definition parse_integer (s : string) : option Z :=
  match s with
  | EmptyString => None
  | String "-" EmptyString => None
  | String "-" rest => option_map Z.opp (parse_digits rest 0)
  | _ => parse_digits s 0
  end.

Definition is_digit (c : ascii) : bool :=
  match digit_value c with Some _ => true | None => false end.

Fixpoint all_digits (s : string) : bool :=
  match s with
  | EmptyString => true
  | String c rest => is_digit c && all_digits rest
  end.

(** A plain decimal integer: digits only, after an optional minus sign;
    so no exponent, no decimal point and no separator. *)
Definition plain_decimal (s : string) : bool :=
  match s with
  | EmptyString => false
  | String "-" rest => negb (String.eqb rest "") && all_digits rest
  | _ => all_digits s
  end.

Definition round_half_even (num den : Z) : Z :=
  let q := num / den in
  match (2 * (num mod den)) ?= den with
  | Lt => q
  | Gt => q + 1
  | Eq => if Z.even q then q else q + 1
  end.

Fixpoint zeros (k : nat) : string :=
  match k with O => "" | S k' => String "0" (zeros k') end.

Definition pad_left (width : nat) (s : string) : string :=
  zeros (width - String.length s) +:+ s.

Definition sign_text (s : bool) : string := if s then "-" else "".

(** What the stream inserts for a [double] in [fixed] notation with
    [precision] digits after the point: the exact value rounded to that
    many decimals, ties to even. *)
Definition put_fixed (precision : nat) (x : Double.double) : string :=
  let scale := 10 ^ Z.of_nat precision in
  let body (scaled : Z) :=
    decimal (scaled / scale) +:+ "." +:+ pad_left precision (decimal (scaled mod scale)) in
  match x with
  | S754_nan => "nan"
  | S754_infinity s => sign_text s +:+ "inf"
  | S754_zero s => sign_text s +:+ body 0
  | S754_finite s m e =>
      let scaled :=
        if 0 <=? e then Z.pos m * 2 ^ e * scale
        else round_half_even (Z.pos m * scale) (2 ^ (- e)) in
      sign_text s +:+ body scaled
  end.

End Text.

(** ** [Measurement::Value] *)

Module Value.

(** [v] is the storage of the union; [floating_point] and [integer] below
    are its two members. *)
Record Value : Type := {
  v : Z;
  is_floating_point : bool
}.

(** [Value(bool is_floating)]: the union is zero-initialised. *)
Definition construct (is_floating : bool) : Value :=
  {| v := 0; is_floating_point := is_floating |}.

Definition floating_point (x : Value) : Double.double := Double.of_bits (v x).
Definition integer (x : Value) : Z := Int64.of_bits (v x).

Definition set_floating_point (x : Value) (f : Double.double) : Value :=
  {| v := Double.to_bits f; is_floating_point := is_floating_point x |}.
Definition set_integer (x : Value) (n : Z) : Value :=
  {| v := Int64.to_bits n; is_floating_point := is_floating_point x |}.

(** [operator<<(std::ostream &, const Value &)]: the text appended to the
    stream.  The precision set in the integer branch does not take part
    in the insertion of an integer. *)
Definition put (value : Value) : string :=
  if is_floating_point value
  then Text.put_fixed 4 (floating_point value)
  else Text.put_integer (integer value).

Definition to_string (this : Value) : string := put this.

(** [operator+]: [b] is a copy of the argument; the receiver's tag selects
    the member, the copy is updated and returned. *)
Definition operator_add (this b : Value) : Value :=
  if is_floating_point this
  then set_floating_point b (Double.add (floating_point b) (floating_point this))
  else set_integer b (Int64.add (integer b) (integer this)).

(** [operator-]: as the source has it, [b.v.m -= v.m] on the copy. *)
Definition operator_sub (this b : Value) : Value :=
  if is_floating_point this
  then set_floating_point b (Double.sub (floating_point b) (floating_point this))
  else set_integer b (Int64.sub (integer b) (integer this)).

(** [operator*] *)
Definition operator_mul (this b : Value) : Value :=
  if is_floating_point this
  then set_floating_point b (Double.mul (floating_point b) (floating_point this))
  else set_integer b (Int64.mul (integer b) (integer this)).

(** [operator/(int b)]: the [int] is converted, exactly, to [double] in
    the one branch and to [long long] in the other; [None] where the
    integer division has no result. *)
Definition operator_div (this : Value) (b : Z) : option Value :=
  let res := construct (is_floating_point this) in
  if is_floating_point this
  then Some (set_floating_point res (Double.div (floating_point this) (Double.of_Z b)))
  else option_map (set_integer res) (Int64.div (integer this) b).

(** The body of [operator-=]: the new content of the receiver, given the
    content [b] of the argument. *)
Definition sub_assign (this b : Value) : Value :=
  if is_floating_point this
  then set_floating_point this (Double.sub (floating_point this) (floating_point b))
  else set_integer this (Int64.sub (integer this) (integer b)).

(** [operator-=] takes its argument by reference and returns a reference
    to the receiver: objects live in a store, and the receiver and the
    argument are two addresses, possibly the same one. *)
Definition operator_sub_assign (objects : gmap nat Value) (this b : nat)
  : option (gmap nat Value * nat) :=
  match objects !! this, objects !! b with
  | Some x, Some y => Some (<[this := sub_assign x y]> objects, this)
  | _, _ => None
  end.

(** [operator<] *)
Definition operator_lt (this b : Value) : bool :=
  if is_floating_point this
  then Double.ltb (floating_point this) (floating_point b)
  else Int64.ltb (integer this) (integer b).

(** The literal [100.0]. *)
Definition hundred : Double.double := Double.of_Z 100.

Definition relative_standard_deviation (variance mean : Value) : Double.double :=
  if is_floating_point variance
  then Double.div (Double.mul hundred (Double.sqrt (floating_point variance)))
                  (floating_point mean)
  else Double.div (Double.mul hundred (Double.sqrt (Double.of_Z (integer variance))))
                  (Double.of_Z (integer mean)).

End Value.

(** ** [Measurement] *)

Module Measurement.

Import Value.

Record Measurement : Type := {
  _unit : string;
  _raw_data : list string;
  _value : Value
}.

Definition raw_or_rendered (raw : list string) (value : Value) : list string :=
  match raw with
  | [] => [to_string value]
  | _ => raw
  end.

(** The constructor for a floating point value; [v] is already the
    [double] the argument converts to. *)
Definition of_floating (v : Double.double) (unit : string) (raw : list string)
  : Measurement :=
  let value := set_floating_point (construct true) v in
  {| _unit := unit; _raw_data := raw_or_rendered raw value; _value := value |}.

(** The constructor for an integer value. *)
Definition of_integer (v : Z) (unit : string) (raw : list string) : Measurement :=
  let value := set_integer (construct false) v in
  {| _unit := unit; _raw_data := raw_or_rendered raw value; _value := value |}.

Definition unit (m : Measurement) : string := _unit m.
Definition raw_data (m : Measurement) : list string := _raw_data m.
Definition value (m : Measurement) : Value := _value m.

Definition operator_lt (this b : Measurement) : bool :=
  Value.operator_lt (_value this) (value b).

Definition put (measurement : Measurement) : string :=
  Value.put (_value measurement) +:+ " " +:+ _unit measurement.

End Measurement.

(** ** Statements that may throw *)

Module Exn.

Inductive exception : Type := runtime_error.

Inductive result (A : Type) : Type :=
| Ok (a : A)
| Throw (e : exception).
Arguments Ok {A} a.
Arguments Throw {A} e.

(** A statement runs on a state and ends normally or by an exception; the
    writes made before the exception stay. *)
Definition stmt (S A : Type) : Type := S -> result A * S.

Definition ret {S A} (a : A) : stmt S A := fun s => (Ok a, s).

Definition bind {S A B} (m : stmt S A) (k : A -> stmt S B) : stmt S B :=
  fun s =>
    match m s with
    | (Ok a, s') => k a s'
    | (Throw e, s') => (Throw e, s')
    end.

Definition seq {S A B} (m : stmt S A) (k : stmt S B) : stmt S B :=
  bind m (fun _ => k).

(** [try { body } catch (const std::runtime_error &) { handler }] *)
Definition try_catch {S A} (body handler : stmt S A) : stmt S A :=
  fun s =>
    match body s with
    | (Ok a, s') => (Ok a, s')
    | (Throw runtime_error, s') => handler s'
    end.

Definition modify {S} (f : S -> S) : stmt S () := fun s => (Ok tt, f s).

End Exn.

(** ** The counter handle *)

(** Modelled from the spec: the class of the six [_pmu_*] members, which is
    declared outside these two files.  What [PMUCounter] uses of it:
    [reset()], which returns nothing and cannot fail, and
    [get_value<long long>()], which returns the count or throws
    [std::runtime_error] when the counter cannot be read. *)
Class CounterHandle (H : Type) : Type := {
  reset : H -> H;
  get_value : H -> Exn.result Z
}.

(** A handle for the scenarios: a counter that is readable or not, and the
    number of times it was reset. *)
Module Stub.

Record handle : Type := {
  count : option Z;
  resets : nat
}.

Definition readable (n : Z) : handle := {| count := Some n; resets := 0 |}.
Definition unreadable : handle := {| count := None; resets := 0 |}.

Definition stub_reset (h : handle) : handle :=
  {| count := match count h with Some _ => Some 0 | None => None end;
     resets := S (resets h) |}.

Definition stub_get_value (h : handle) : Exn.result Z :=
  match count h with
  | Some n => Exn.Ok n
  | None => Exn.Throw Exn.runtime_error
  end.

#[global] Instance stub_handle : CounterHandle handle :=
  {| reset := stub_reset; get_value := stub_get_value |}.

End Stub.

(** ** [PMUCounter] *)

(** Modelled from the spec: [Instrument::MeasurementsMap], declared outside
    these two files, is a mapping from a name to a [Measurement]; as a
    [std::map] it keeps the first of two entries of an initializer list that
    have the same key. *)
Abbreviation MeasurementsMap := (gmap string Measurement.Measurement).

Module PMUCounter.

Import Exn.

Section Instrument.

Context {H : Type} `{CounterHandle H}.

(** Modelled from the spec: the members of the class, which is declared
    outside these two files: six counter handles, and six [long long]
    accumulators written by [stop()]. *)
Record PMUCounter : Type := {
  _pmu_cycles : H;
  _pmu_instructions : H;
  _pmu_cache_references : H;
  _pmu_cache_misses : H;
  _pmu_branch_instructions : H;
  _pmu_branch_misses : H;
  _cycles : Z;
  _instructions : Z;
  _cache_references : Z;
  _cache_misses : Z;
  _branch_instructions : Z;
  _branch_misses : Z
}.

(** Writes to one member. *)
Definition set_pmu_cycles (h : H) (s : PMUCounter) : PMUCounter :=
  {| _pmu_cycles := h; _pmu_instructions := _pmu_instructions s;
     _pmu_cache_references := _pmu_cache_references s;
     _pmu_cache_misses := _pmu_cache_misses s;
     _pmu_branch_instructions := _pmu_branch_instructions s;
     _pmu_branch_misses := _pmu_branch_misses s;
     _cycles := _cycles s; _instructions := _instructions s;
     _cache_references := _cache_references s; _cache_misses := _cache_misses s;
     _branch_instructions := _branch_instructions s;
     _branch_misses := _branch_misses s |}.
Definition set_pmu_instructions (h : H) (s : PMUCounter) : PMUCounter :=
  {| _pmu_cycles := _pmu_cycles s; _pmu_instructions := h;
     _pmu_cache_references := _pmu_cache_references s;
     _pmu_cache_misses := _pmu_cache_misses s;
     _pmu_branch_instructions := _pmu_branch_instructions s;
     _pmu_branch_misses := _pmu_branch_misses s;
     _cycles := _cycles s; _instructions := _instructions s;
     _cache_references := _cache_references s; _cache_misses := _cache_misses s;
     _branch_instructions := _branch_instructions s;
     _branch_misses := _branch_misses s |}.
Definition set_pmu_cache_references (h : H) (s : PMUCounter) : PMUCounter :=
  {| _pmu_cycles := _pmu_cycles s; _pmu_instructions := _pmu_instructions s;
     _pmu_cache_references := h;
     _pmu_cache_misses := _pmu_cache_misses s;
     _pmu_branch_instructions := _pmu_branch_instructions s;
     _pmu_branch_misses := _pmu_branch_misses s;
     _cycles := _cycles s; _instructions := _instructions s;
     _cache_references := _cache_references s; _cache_misses := _cache_misses s;
     _branch_instructions := _branch_instructions s;
     _branch_misses := _branch_misses s |}.
Definition set_pmu_cache_misses (h : H) (s : PMUCounter) : PMUCounter :=
  {| _pmu_cycles := _pmu_cycles s; _pmu_instructions := _pmu_instructions s;
     _pmu_cache_references := _pmu_cache_references s;
     _pmu_cache_misses := h;
     _pmu_branch_instructions := _pmu_branch_instructions s;
     _pmu_branch_misses := _pmu_branch_misses s;
     _cycles := _cycles s; _instructions := _instructions s;
     _cache_references := _cache_references s; _cache_misses := _cache_misses s;
     _branch_instructions := _branch_instructions s;
     _branch_misses := _branch_misses s |}.
Definition set_pmu_branch_instructions (h : H) (s : PMUCounter) : PMUCounter :=
  {| _pmu_cycles := _pmu_cycles s; _pmu_instructions := _pmu_instructions s;
     _pmu_cache_references := _pmu_cache_references s;
     _pmu_cache_misses := _pmu_cache_misses s;
     _pmu_branch_instructions := h;
     _pmu_branch_misses := _pmu_branch_misses s;
     _cycles := _cycles s; _instructions := _instructions s;
     _cache_references := _cache_references s; _cache_misses := _cache_misses s;
     _branch_instructions := _branch_instructions s;
     _branch_misses := _branch_misses s |}.
Definition set_pmu_branch_misses (h : H) (s : PMUCounter) : PMUCounter :=
  {| _pmu_cycles := _pmu_cycles s; _pmu_instructions := _pmu_instructions s;
     _pmu_cache_references := _pmu_cache_references s;
     _pmu_cache_misses := _pmu_cache_misses s;
     _pmu_branch_instructions := _pmu_branch_instructions s;
     _pmu_branch_misses := h;
     _cycles := _cycles s; _instructions := _instructions s;
     _cache_references := _cache_references s; _cache_misses := _cache_misses s;
     _branch_instructions := _branch_instructions s;
     _branch_misses := _branch_misses s |}.
Definition set_cycles (n : Z) (s : PMUCounter) : PMUCounter :=
  {| _pmu_cycles := _pmu_cycles s; _pmu_instructions := _pmu_instructions s;
     _pmu_cache_references := _pmu_cache_references s;
     _pmu_cache_misses := _pmu_cache_misses s;
     _pmu_branch_instructions := _pmu_branch_instructions s;
     _pmu_branch_misses := _pmu_branch_misses s;
     _cycles := n; _instructions := _instructions s;
     _cache_references := _cache_references s; _cache_misses := _cache_misses s;
     _branch_instructions := _branch_instructions s;
     _branch_misses := _branch_misses s |}.
Definition set_instructions (n : Z) (s : PMUCounter) : PMUCounter :=
  {| _pmu_cycles := _pmu_cycles s; _pmu_instructions := _pmu_instructions s;
     _pmu_cache_references := _pmu_cache_references s;
     _pmu_cache_misses := _pmu_cache_misses s;
     _pmu_branch_instructions := _pmu_branch_instructions s;
     _pmu_branch_misses := _pmu_branch_misses s;
     _cycles := _cycles s; _instructions := n;
     _cache_references := _cache_references s; _cache_misses := _cache_misses s;
     _branch_instructions := _branch_instructions s;
     _branch_misses := _branch_misses s |}.
Definition set_cache_references (n : Z) (s : PMUCounter) : PMUCounter :=
  {| _pmu_cycles := _pmu_cycles s; _pmu_instructions := _pmu_instructions s;
     _pmu_cache_references := _pmu_cache_references s;
     _pmu_cache_misses := _pmu_cache_misses s;
     _pmu_branch_instructions := _pmu_branch_instructions s;
     _pmu_branch_misses := _pmu_branch_misses s;
     _cycles := _cycles s; _instructions := _instructions s;
     _cache_references := n; _cache_misses := _cache_misses s;
     _branch_instructions := _branch_instructions s;
     _branch_misses := _branch_misses s |}.
Definition set_cache_misses (n : Z) (s : PMUCounter) : PMUCounter :=
  {| _pmu_cycles := _pmu_cycles s; _pmu_instructions := _pmu_instructions s;
     _pmu_cache_references := _pmu_cache_references s;
     _pmu_cache_misses := _pmu_cache_misses s;
     _pmu_branch_instructions := _pmu_branch_instructions s;
     _pmu_branch_misses := _pmu_branch_misses s;
     _cycles := _cycles s; _instructions := _instructions s;
     _cache_references := _cache_references s; _cache_misses := n;
     _branch_instructions := _branch_instructions s;
     _branch_misses := _branch_misses s |}.
Definition set_branch_instructions (n : Z) (s : PMUCounter) : PMUCounter :=
  {| _pmu_cycles := _pmu_cycles s; _pmu_instructions := _pmu_instructions s;
     _pmu_cache_references := _pmu_cache_references s;
     _pmu_cache_misses := _pmu_cache_misses s;
     _pmu_branch_instructions := _pmu_branch_instructions s;
     _pmu_branch_misses := _pmu_branch_misses s;
     _cycles := _cycles s; _instructions := _instructions s;
     _cache_references := _cache_references s; _cache_misses := _cache_misses s;
     _branch_instructions := n;
     _branch_misses := _branch_misses s |}.
Definition set_branch_misses (n : Z) (s : PMUCounter) : PMUCounter :=
  {| _pmu_cycles := _pmu_cycles s; _pmu_instructions := _pmu_instructions s;
     _pmu_cache_references := _pmu_cache_references s;
     _pmu_cache_misses := _pmu_cache_misses s;
     _pmu_branch_instructions := _pmu_branch_instructions s;
     _pmu_branch_misses := _pmu_branch_misses s;
     _cycles := _cycles s; _instructions := _instructions s;
     _cache_references := _cache_references s; _cache_misses := _cache_misses s;
     _branch_instructions := _branch_instructions s;
     _branch_misses := n |}.

(** The three statements of the bodies, on a member of the object. *)

(** [member.reset();] *)
Definition call_reset (member : PMUCounter -> H)
    (set_member : H -> PMUCounter -> PMUCounter) : stmt PMUCounter () :=
  fun s => (Ok tt, set_member (reset (member s)) s).

(** [member.get_value<long long>()] *)
Definition call_get_value (member : PMUCounter -> H) : stmt PMUCounter Z :=
  fun s => (get_value (member s), s).

(** [accumulator = n;] *)
Definition assign (set_accumulator : Z -> PMUCounter -> PMUCounter) (n : Z)
  : stmt PMUCounter () :=
  modify (set_accumulator n).

Definition id (s : PMUCounter) : string := "PMU Counter".

Definition start : stmt PMUCounter () :=
  seq (call_reset _pmu_cycles set_pmu_cycles)
  (seq (call_reset _pmu_instructions set_pmu_instructions)
  (seq (call_reset _pmu_cache_references set_pmu_cache_references)
  (seq (call_reset _pmu_cache_misses set_pmu_cache_misses)
  (seq (call_reset _pmu_branch_instructions set_pmu_branch_instructions)
       (call_reset _pmu_branch_misses set_pmu_branch_misses))))).

(** One [try]/[catch] of [stop()]:
    [try { acc = member.get_value<long long>(); member.reset(); }
     catch (const std::runtime_error &) { acc = 0; }] *)
Definition try_capture (member : PMUCounter -> H)
    (set_member : H -> PMUCounter -> PMUCounter)
    (set_accumulator : Z -> PMUCounter -> PMUCounter) : stmt PMUCounter () :=
  try_catch
    (bind (call_get_value member) (fun n =>
     seq (assign set_accumulator n)
         (call_reset member set_member)))
    (assign set_accumulator 0).

Definition stop : stmt PMUCounter () :=
  seq (try_capture _pmu_cycles set_pmu_cycles set_cycles)
  (seq (try_capture _pmu_instructions set_pmu_instructions set_instructions)
  (seq (try_capture _pmu_cache_references set_pmu_cache_references set_cache_references)
  (seq (try_capture _pmu_cache_misses set_pmu_cache_misses set_cache_misses)
  (seq (try_capture _pmu_branch_instructions set_pmu_branch_instructions
                    set_branch_instructions)
       (try_capture _pmu_branch_misses set_pmu_branch_misses set_branch_misses))))).

(** [measurements()]: the map is built from the initializer list, entry
    by entry.  Both operands of a ratio are converted to [double]. *)
Definition measurements (s : PMUCounter) : MeasurementsMap :=
  list_to_map
    [ ("CPU cycles"%string, Measurement.of_integer (_cycles s) "cycles" []);
      ("CPU instructions"%string,
         Measurement.of_integer (_instructions s) "instructions" []);
      ("Cache miss ratio"%string,
         Measurement.of_floating
           (Double.div (Double.of_Z (_cache_misses s))
                       (Double.of_Z (_cache_references s))) "" []);
      ("Branch miss ratio"%string,
         Measurement.of_floating
           (Double.div (Double.of_Z (_branch_misses s))
                       (Double.of_Z (_branch_instructions s))) "" []) ].

End Instrument.

Arguments PMUCounter H : clear implicits.

End PMUCounter.

(** ** Scenarios

    An instrument over stub handles, and the workload that runs between
    [start()] and [stop()]: it makes the readable counters advance. *)

Module Scenario.

Import PMUCounter.

Definition advance (events : Z) (h : Stub.handle) : Stub.handle :=
  {| Stub.count := match Stub.count h with
                   | Some n => Some (n + events)
                   | None => None
                   end;
     Stub.resets := Stub.resets h |}.

(** An instrument that captured nothing yet. *)
Definition instrument
    (cycles instructions cache_references cache_misses branch_instructions
       branch_misses : Stub.handle) : PMUCounter Stub.handle :=
  {| _pmu_cycles := cycles;
     _pmu_instructions := instructions;
     _pmu_cache_references := cache_references;
     _pmu_cache_misses := cache_misses;
     _pmu_branch_instructions := branch_instructions;
     _pmu_branch_misses := branch_misses;
     _cycles := 0;
     _instructions := 0;
     _cache_references := 0;
     _cache_misses := 0;
     _branch_instructions := 0;
     _branch_misses := 0 |}.

Definition workload
    (cycles instructions cache_references cache_misses branch_instructions
       branch_misses : Z) (s : PMUCounter Stub.handle) : PMUCounter Stub.handle :=
  set_pmu_cycles (advance cycles (_pmu_cycles s))
  (set_pmu_instructions (advance instructions (_pmu_instructions s))
  (set_pmu_cache_references (advance cache_references (_pmu_cache_references s))
  (set_pmu_cache_misses (advance cache_misses (_pmu_cache_misses s))
  (set_pmu_branch_instructions (advance branch_instructions (_pmu_branch_instructions s))
  (set_pmu_branch_misses (advance branch_misses (_pmu_branch_misses s)) s))))).

(** [start()], the workload, [stop()]: the state the instrument is left
    in.  An exception that leaves [start()] or [stop()] ends the run. *)
Definition run (events : PMUCounter Stub.handle -> PMUCounter Stub.handle)
    (s : PMUCounter Stub.handle) : Exn.result () * PMUCounter Stub.handle :=
  match start s with
  | (Exn.Ok _, armed) => stop (events armed)
  | (Exn.Throw e, s') => (Exn.Throw e, s')
  end.

(** The text of the value stored under a key. *)
Definition rendered (key : string) (s : PMUCounter Stub.handle) : option string :=
  match measurements s !! key with
  | Some m => Some (Value.to_string (Measurement.value m))
  | None => None
  end.

End Scenario.

(** ** Notions of the specification

    The words of the specification that the properties below compare the
    code with. *)

Module Spec.

(** The capture of one counter: on a successful read the count is stored
    and the handle is reset; on a failed read zero is stored and the handle
    is left as it is. *)
Definition captured {H : Type} `{CounterHandle H} (before after : H) (accumulator : Z)
  : Prop :=
  match get_value before with
  | Exn.Ok n => accumulator = n /\ after = reset before
  | Exn.Throw Exn.runtime_error => accumulator = 0 /\ after = before
  end.

(** The same, as the two results of a capture. *)
Definition captured_count {H : Type} `{CounterHandle H} (before : H) : Z :=
  match get_value before with
  | Exn.Ok n => n
  | Exn.Throw Exn.runtime_error => 0
  end.

Definition handle_after_capture {H : Type} `{CounterHandle H} (before : H) : H :=
  match get_value before with
  | Exn.Ok _ => reset before
  | Exn.Throw Exn.runtime_error => before
  end.

(** The number a [Value] stands for, as a [double]: its floating member, or
    its integer member converted. *)
Definition as_double (x : Value.Value) : Double.double :=
  if Value.is_floating_point x
  then Value.floating_point x
  else Double.of_Z (Value.integer x).

(** [100 * sqrt(variance) / mean] *)
Definition percentage_of_mean (variance mean : Double.double) : Double.double :=
  Double.div (Double.mul (Double.of_Z 100) (Double.sqrt variance)) mean.

(** A [Value] that is zero; a [Value] that is a number other than zero. *)
Definition is_zero (x : Value.Value) : bool :=
  if Value.is_floating_point x
  then Double.is_zero (Value.floating_point x)
  else Value.integer x =? 0.

Definition is_nonzero_number (x : Value.Value) : bool :=
  if Value.is_floating_point x
  then Double.is_nonzero_number (Value.floating_point x)
  else negb (Value.integer x =? 0).

(** [misses / references] as a floating ratio. *)
Definition ratio (misses references : Z) : Double.double :=
  Double.div (Double.of_Z misses) (Double.of_Z references).

(** Infinity or NaN. *)
Definition is_special (x : Double.double) : bool :=
  Double.is_infinite x || Double.is_nan x.

End Spec.

(** * Properties *)

(** ** [long long]: storage and wrap-around *)

Lemma int64_of_bits_in_range (bits : Z) : Int64.in_range (Int64.of_bits bits).
Proof.
  unfold Int64.in_range, Int64.of_bits, Int64.min_signed, Int64.max_signed,
    Int64.half_modulus, Int64.modulus.
  pose proof (Z.mod_pos_bound bits (2 ^ 64) ltac:(lia)) as Hu.
  destruct (Z.ltb_spec (bits mod 2 ^ 64) (2 ^ 63)); lia.
Qed.

Lemma int64_of_to_bits (n : Z) :
  Int64.in_range n -> Int64.of_bits (Int64.to_bits n) = n.
Proof.
  unfold Int64.in_range, Int64.of_bits, Int64.to_bits, Int64.min_signed,
    Int64.max_signed, Int64.half_modulus, Int64.modulus.
  intros Hn. rewrite Z.mod_mod by lia.
  destruct (Z.ltb_spec (n mod 2 ^ 64) (2 ^ 63)) as [Hlt | Hge].
  - destruct (Z.neg_nonneg_cases n) as [Hneg | Hpos].
    + assert (n mod 2 ^ 64 = n + 2 ^ 64) as Heq
        by (symmetry; apply (Z.mod_unique_pos n (2 ^ 64) (-1)); lia).
      lia.
    + apply Z.mod_small. lia.
  - destruct (Z.neg_nonneg_cases n) as [Hneg | Hpos].
    + assert (n mod 2 ^ 64 = n + 2 ^ 64) as Heq
        by (symmetry; apply (Z.mod_unique_pos n (2 ^ 64) (-1)); lia).
      lia.
    + rewrite Z.mod_small in Hge by lia. lia.
Qed.

Lemma int64_wrap_in_range (n : Z) : Int64.in_range n -> Int64.wrap n = n.
Proof. apply int64_of_to_bits. Qed.

(** Two numbers with the same residue wrap to the same integer. *)
Lemma int64_wrap_congr (a b : Z) :
  a mod Int64.modulus = b mod Int64.modulus -> Int64.wrap a = Int64.wrap b.
Proof.
  intros Hab. unfold Int64.wrap, Int64.of_bits, Int64.to_bits.
  rewrite !Z.mod_mod by (unfold Int64.modulus; lia). now rewrite Hab.
Qed.

Lemma int64_wrap_mod (n : Z) : Int64.wrap n mod Int64.modulus = n mod Int64.modulus.
Proof.
  unfold Int64.wrap, Int64.of_bits, Int64.to_bits.
  rewrite Z.mod_mod by (unfold Int64.modulus; lia).
  destruct (n mod Int64.modulus <? Int64.half_modulus).
  - apply Z.mod_mod. unfold Int64.modulus; lia.
  - rewrite <- (Z.mod_mod n Int64.modulus) at 2 by (unfold Int64.modulus; lia).
    rewrite <- (Z.mod_add (n mod Int64.modulus - Int64.modulus) 1 Int64.modulus)
      by (unfold Int64.modulus; lia).
    f_equal. lia.
Qed.

Lemma int64_integer_set (x : Value.Value) (n : Z) :
  Value.integer (Value.set_integer x n) = Int64.wrap n.
Proof. reflexivity. Qed.

(** ** Decimal text of integers *)

Lemma digit_value_digit_char (d : Z) :
  0 <= d < 10 -> Text.digit_value (Text.digit_char d) = Some d.
Proof.
  intros Hd.
  assert (d = 0 \/ d = 1 \/ d = 2 \/ d = 3 \/ d = 4 \/ d = 5 \/ d = 6 \/ d = 7
          \/ d = 8 \/ d = 9) as Hcases by lia.
  repeat (destruct Hcases as [-> | Hcases]; [reflexivity |]).
  subst d. reflexivity.
Qed.

Lemma is_digit_digit_char (d : Z) : 0 <= d < 10 -> Text.is_digit (Text.digit_char d) = true.
Proof.
  intros Hd. unfold Text.is_digit. now rewrite digit_value_digit_char.
Qed.

Lemma string_append_nil (t : string) : "" +:+ t = t.
Proof. reflexivity. Qed.

Lemma string_append_cons (c : ascii) (s t : string) :
  String c s +:+ t = String c (s +:+ t).
Proof. reflexivity. Qed.

Lemma string_append_assoc (s t u : string) : (s +:+ t) +:+ u = s +:+ (t +:+ u).
Proof.
  induction s as [| c s IH]; [reflexivity |].
  rewrite !string_append_cons. now rewrite IH.
Qed.

Lemma parse_digits_append (s t : string) (a : Z) :
  Text.parse_digits (s +:+ t) a =
  match Text.parse_digits s a with
  | Some a' => Text.parse_digits t a'
  | None => None
  end.
Proof.
  revert a. induction s as [| c s IH]; intros a; [reflexivity |].
  rewrite string_append_cons. cbn [Text.parse_digits].
  destruct (Text.digit_value c); [apply IH | reflexivity].
Qed.

Lemma digits_of_accumulator (fuel : nat) (n : Z) (acc : string) :
  Text.digits_of fuel n acc = Text.digits_of fuel n "" +:+ acc.
Proof.
  revert n acc. induction fuel as [| k IH]; intros n acc; cbn [Text.digits_of];
    [reflexivity |].
  destruct (n <? 10); [reflexivity |].
  rewrite (IH (n / 10) (String (Text.digit_char (n mod 10)) acc)).
  rewrite (IH (n / 10) (String (Text.digit_char (n mod 10)) "")).
  now rewrite string_append_assoc.
Qed.

Lemma parse_digits_of (fuel : nat) (n : Z) :
  0 <= n < 10 ^ Z.of_nat (S fuel) ->
  Text.parse_digits (Text.digits_of fuel n "") 0 = Some n.
Proof.
  revert n. induction fuel as [| k IH]; intros n Hn.
  - change (10 ^ Z.of_nat 1) with 10 in Hn. cbn [Text.digits_of Text.parse_digits].
    rewrite digit_value_digit_char by (apply Z.mod_pos_bound; lia).
    f_equal. rewrite Z.mod_small; lia.
  - cbn [Text.digits_of]. destruct (Z.ltb_spec n 10) as [Hlt | Hge].
    + cbn [Text.parse_digits].
      rewrite digit_value_digit_char by (apply Z.mod_pos_bound; lia).
      f_equal. rewrite Z.mod_small; lia.
    + rewrite digits_of_accumulator, parse_digits_append.
      rewrite IH.
      * cbn [Text.parse_digits].
        rewrite digit_value_digit_char by (apply Z.mod_pos_bound; lia).
        f_equal. pose proof (Z.div_mod n 10 ltac:(lia)). lia.
      * split; [apply Z.div_pos; lia |].
        apply Z.div_lt_upper_bound; [lia |].
        replace (Z.of_nat (S (S k))) with (1 + Z.of_nat (S k)) in Hn by lia.
        rewrite Z.pow_add_r in Hn by lia. lia.
Qed.

Lemma decimal_fuel (n : Z) : 0 <= n -> n < 10 ^ Z.of_nat (S (Z.to_nat (Z.log2 n))).
Proof.
  intros Hn.
  pose proof (Z.log2_nonneg n) as Hlog.
  replace (Z.of_nat (S (Z.to_nat (Z.log2 n)))) with (Z.succ (Z.log2 n)) by lia.
  destruct (Z.eq_dec n 0) as [-> | Hnz].
  - reflexivity.
  - pose proof (Z.log2_spec n ltac:(lia)) as [_ Hup].
    eapply Z.lt_le_trans; [exact Hup |].
    apply Z.pow_le_mono_l. lia.
Qed.

Lemma parse_decimal (n : Z) : 0 <= n -> Text.parse_digits (Text.decimal n) 0 = Some n.
Proof.
  intros Hn. apply parse_digits_of. split; [exact Hn | now apply decimal_fuel].
Qed.

Lemma all_digits_digits_of (fuel : nat) (n : Z) (acc : string) :
  Text.all_digits acc = true -> Text.all_digits (Text.digits_of fuel n acc) = true.
Proof.
  revert n acc. induction fuel as [| k IH]; intros n acc Hacc;
    cbn [Text.digits_of Text.all_digits].
  - rewrite is_digit_digit_char by (apply Z.mod_pos_bound; lia). exact Hacc.
  - destruct (n <? 10).
    + cbn [Text.all_digits].
      rewrite is_digit_digit_char by (apply Z.mod_pos_bound; lia). exact Hacc.
    + apply IH. cbn [Text.all_digits].
      rewrite is_digit_digit_char by (apply Z.mod_pos_bound; lia). exact Hacc.
Qed.

Lemma all_digits_decimal (n : Z) : Text.all_digits (Text.decimal n) = true.
Proof. now apply all_digits_digits_of. Qed.

Lemma digits_of_not_empty (fuel : nat) (n : Z) (acc : string) :
  Text.digits_of fuel n acc <> "".
Proof.
  revert n acc. induction fuel as [| k IH]; intros n acc; cbn [Text.digits_of];
    [discriminate |].
  destruct (n <? 10); [discriminate | apply IH].
Qed.

(** A non-empty string of digits is read as a whole; it is a plain decimal. *)
Lemma parse_integer_digits (s : string) :
  s <> "" -> Text.all_digits s = true ->
  Text.parse_integer s = Text.parse_digits s 0 /\ Text.plain_decimal s = true.
Proof.
  intros Hne Hall. destruct s as [| c rest]; [congruence |].
  cbn [Text.all_digits] in Hall. apply andb_prop in Hall as [Hc Hrest].
  destruct (ascii_dec c "-") as [-> | Hminus]; [discriminate Hc |].
  unfold Text.parse_integer, Text.plain_decimal.
  destruct c as [[] [] [] [] [] [] [] []]; try congruence;
    (split; [reflexivity | cbn [Text.all_digits]; now rewrite ?Hc, ?Hrest]).
Qed.

Lemma put_integer_round_trip (n : Z) :
  Text.parse_integer (Text.put_integer n) = Some n
  /\ Text.plain_decimal (Text.put_integer n) = true.
Proof.
  unfold Text.put_integer. destruct (Z.ltb_spec n 0) as [Hneg | Hpos].
  - pose proof (parse_decimal (- n) ltac:(lia)) as Hparse.
    pose proof (all_digits_decimal (- n)) as Hall.
    pose proof (digits_of_not_empty (Z.to_nat (Z.log2 (- n))) (- n) "") as Hne.
    fold (Text.decimal (- n)) in Hne.
    unfold Text.parse_integer, Text.plain_decimal.
    destruct (Text.decimal (- n)) as [| c rest] eqn:Hdec; [congruence |].
    rewrite Hparse, Hall. split; [cbn [option_map]; f_equal; lia | reflexivity].
  - pose proof (digits_of_not_empty (Z.to_nat (Z.log2 n)) n "") as Hne.
    fold (Text.decimal n) in Hne.
    destruct (parse_integer_digits _ Hne (all_digits_decimal n)) as [-> ->].
    split; [now apply parse_decimal | reflexivity].
Qed.

(** ** [Value]: arithmetic *)

Section ValueArithmetic.

Import Value.

(** The value returned by [operator+] and [operator-] is the updated copy
    of the argument: it carries the argument's tag. *)
Lemma operator_add_tag (a b : Value) :
  is_floating_point (operator_add a b) = is_floating_point b.
Proof. unfold operator_add. now destruct (is_floating_point a). Qed.

Lemma operator_sub_tag (a b : Value) :
  is_floating_point (operator_sub a b) = is_floating_point b.
Proof. unfold operator_sub. now destruct (is_floating_point a). Qed.

Lemma operator_add_integer (a b : Value) :
  is_floating_point a = false ->
  integer (operator_add a b) = Int64.wrap (integer a + integer b).
Proof.
  intros Ha. unfold operator_add. rewrite Ha, int64_integer_set.
  unfold Int64.add. rewrite int64_wrap_in_range by apply int64_of_bits_in_range.
  f_equal. lia.
Qed.

(** [a - b] on integers is [b - a]: the members are subtracted in the
    order of [b.v.integer -= v.integer]. *)
Lemma operator_sub_integer (a b : Value) :
  is_floating_point a = false ->
  integer (operator_sub a b) = Int64.wrap (integer b - integer a).
Proof.
  intros Ha. unfold operator_sub. rewrite Ha, int64_integer_set.
  unfold Int64.sub. now rewrite int64_wrap_in_range by apply int64_of_bits_in_range.
Qed.

(** On integer-tagged values, [(a + b) - b] is the negation of [a]. *)
Lemma operator_sub_after_add_integer (a b : Value) :
  is_floating_point a = false -> is_floating_point b = false ->
  integer (operator_sub (operator_add a b) b) = Int64.wrap (- integer a).
Proof.
  intros Ha Hb.
  rewrite operator_sub_integer by now rewrite operator_add_tag.
  rewrite operator_add_integer by exact Ha.
  apply int64_wrap_congr.
  rewrite Zminus_mod, int64_wrap_mod, <- Zminus_mod. f_equal. lia.
Qed.

End ValueArithmetic.

(** C1, at the input [a = 5], [b = 3] (integer tag) and at [a = 1.5],
    [b = 0.25] (floating tag): [operator+] and [operator-] keep the tag, but
    [(a + b) - b] is [-5], respectively [-1.5], not [a]: [operator-]
    subtracts the receiver from its argument, where its documentation
    promises the stored value minus [b]. *)
Theorem operator_sub_after_add_negates :
  let int (n : Z) := Value.set_integer (Value.construct false) n in
  let flt (n d : Z) := Value.set_floating_point (Value.construct true) (Double.of_ratio n d) in
  Value.integer (Value.operator_add (int 5) (int 3)) = 8
  /\ Value.integer (Value.operator_sub (Value.operator_add (int 5) (int 3)) (int 3)) = -5
  /\ Value.integer (Value.operator_sub (Value.operator_add (int 5) (int 3)) (int 3))
     <> Value.integer (int 5)
  /\ Value.is_floating_point
       (Value.operator_sub (Value.operator_add (int 5) (int 3)) (int 3)) = false
  /\ Value.floating_point
       (Value.operator_sub (Value.operator_add (flt 3 2) (flt 1 4)) (flt 1 4))
     = Double.of_ratio (-3) 2
  /\ Double.eqb
       (Value.floating_point
          (Value.operator_sub (Value.operator_add (flt 3 2) (flt 1 4)) (flt 1 4)))
       (Value.floating_point (flt 3 2)) = false
  /\ Value.is_floating_point
       (Value.operator_sub (Value.operator_add (flt 3 2) (flt 1 4)) (flt 1 4)) = true.
Proof.
  cbv zeta. repeat split; try (vm_compute; (reflexivity || discriminate)).
Qed.

(** ** [Value]: text *)

(** C8: the text of an integer-tagged [Value] that holds the 64-bit signed
    integer [n] is a plain decimal integer (digits after an optional minus
    sign, so neither an exponent nor a separator), and reading it back
    gives exactly [n]. *)
Theorem to_string_integer_round_trip (x : Value.Value) (n : Z) :
  Value.is_floating_point x = false ->
  Value.integer x = n ->
  Int64.in_range n
  /\ Value.to_string x = Text.put_integer n
  /\ Text.plain_decimal (Value.to_string x) = true
  /\ Text.parse_integer (Value.to_string x) = Some n.
Proof.
  intros Htag Hn. unfold Value.to_string, Value.put. rewrite Htag, Hn.
  destruct (put_integer_round_trip n) as [Hparse Hplain].
  repeat split; try assumption; subst n; apply int64_of_bits_in_range.
Qed.

Lemma to_string_integer_round_trip_witness :
  let x := Value.set_integer (Value.construct false) (-9223372036854775808) in
  Value.to_string x = "-9223372036854775808"%string
  /\ Text.parse_integer (Value.to_string x) = Some (-9223372036854775808).
Proof.
  cbv zeta.
  destruct (to_string_integer_round_trip
              (Value.set_integer (Value.construct false) (-9223372036854775808))
              (-9223372036854775808) eq_refl eq_refl) as (_ & Htext & _ & Hparse).
  split; [rewrite Htext; vm_compute; reflexivity | exact Hparse].
Defined.

(** ** [Measurement]: raw data *)

(** The double of the literal [3.14159] is [0x1.921f9f01b866ep+1]. *)
Lemma literal_3_14159 :
  Double.of_ratio 314159 100000 = S754_finite false 7074231776675438 (-51)
  /\ valid_binary Double.prec Double.emax (Double.of_ratio 314159 100000) = true.
Proof. split; vm_compute; reflexivity. Qed.

Lemma raw_or_rendered_not_empty (raw : list string) (value : Value.Value) :
  Measurement.raw_or_rendered raw value <> [].
Proof. destruct raw; discriminate. Qed.

(** C9: a [Measurement] constructed with an empty raw list, by either
    constructor, has exactly one raw datum, the text of its value; the raw
    data are empty for no [Measurement], whatever raw list was given; and
    [Measurement(3.14159, "ms")] has the single raw datum ["3.1416"]. *)
Theorem raw_data_defaults_to_rendered_value :
  (forall (v : Double.double) (unit : string),
      Measurement.raw_data (Measurement.of_floating v unit [])
      = [Value.to_string (Measurement.value (Measurement.of_floating v unit []))])
  /\ (forall (v : Z) (unit : string),
      Measurement.raw_data (Measurement.of_integer v unit [])
      = [Value.to_string (Measurement.value (Measurement.of_integer v unit []))])
  /\ (forall (v : Double.double) (unit : string) (raw : list string),
      Measurement.raw_data (Measurement.of_floating v unit raw) <> [])
  /\ (forall (v : Z) (unit : string) (raw : list string),
      Measurement.raw_data (Measurement.of_integer v unit raw) <> [])
  /\ Measurement.raw_data (Measurement.of_floating (Double.of_ratio 314159 100000) "ms" [])
     = ["3.1416"%string].
Proof.
  split; [| split; [| split; [| split]]].
  - intros v unit. reflexivity.
  - intros v unit. reflexivity.
  - intros v unit raw. apply raw_or_rendered_not_empty.
  - intros v unit raw. apply raw_or_rendered_not_empty.
  - vm_compute. reflexivity.
Qed.

(** ** [operator-=]: what a call writes *)

Lemma int64_wrap_wrap (n : Z) : Int64.wrap (Int64.wrap n) = Int64.wrap n.
Proof. apply int64_wrap_in_range, int64_of_bits_in_range. Qed.

Lemma sub_assign_tag (x y : Value.Value) :
  Value.is_floating_point (Value.sub_assign x y) = Value.is_floating_point x.
Proof.
  unfold Value.sub_assign.
  destruct (Value.is_floating_point x) eqn:Hx; exact Hx.
Qed.

Lemma sub_assign_floating (x y : Value.Value) :
  Value.is_floating_point x = true ->
  Value.v (Value.sub_assign x y)
  = Double.to_bits (Double.sub (Value.floating_point x) (Value.floating_point y)).
Proof. intros Hx. unfold Value.sub_assign. now rewrite Hx. Qed.

Lemma sub_assign_integer (x y : Value.Value) :
  Value.is_floating_point x = false ->
  Value.integer (Value.sub_assign x y) = Int64.sub (Value.integer x) (Value.integer y).
Proof.
  intros Hx. unfold Value.sub_assign. rewrite Hx, int64_integer_set.
  apply int64_wrap_wrap.
Qed.

(** When the argument is the receiver itself, an integer receiver becomes
    zero: the argument of such a call is written, being the receiver. *)
Lemma operator_sub_assign_self (objects : gmap nat Value.Value) (a : nat) (x : Value.Value) :
  objects !! a = Some x ->
  Value.is_floating_point x = false ->
  exists x', Value.operator_sub_assign objects a a = Some (<[a := x']> objects, a)
             /\ Value.integer x' = 0.
Proof.
  intros Ha Hx. exists (Value.sub_assign x x). unfold Value.operator_sub_assign.
  rewrite Ha. split; [reflexivity |].
  rewrite sub_assign_integer by exact Hx. unfold Int64.sub.
  now rewrite Z.sub_diag.
Qed.

(** C10: [a -= b] returns the receiver and writes the receiver only: its
    storage is rewritten through the member that its own tag selects, with
    the difference of the two matching members; its tag is the one it had;
    the argument [b], an object other than the receiver, and every other
    object of the store, is as before the call. *)
Theorem operator_sub_assign_frame (objects : gmap nat Value.Value) (a b : nat)
    (x y : Value.Value) :
  objects !! a = Some x ->
  objects !! b = Some y ->
  exists objects' x',
    Value.operator_sub_assign objects a b = Some (objects', a)
    /\ objects' !! a = Some x'
    /\ Value.is_floating_point x' = Value.is_floating_point x
    /\ (Value.is_floating_point x = true ->
        Value.v x'
        = Double.to_bits (Double.sub (Value.floating_point x) (Value.floating_point y)))
    /\ (Value.is_floating_point x = false ->
        Value.integer x' = Int64.sub (Value.integer x) (Value.integer y))
    /\ (b <> a -> objects' !! b = Some y)
    /\ (forall l : nat, l <> a -> objects' !! l = objects !! l).
Proof.
  intros Ha Hb.
  exists (<[a := Value.sub_assign x y]> objects), (Value.sub_assign x y).
  unfold Value.operator_sub_assign. rewrite Ha, Hb.
  split; [reflexivity |].
  split; [apply lookup_insert_eq |].
  split; [apply sub_assign_tag |].
  split; [apply sub_assign_floating |].
  split; [apply sub_assign_integer |].
  split.
  - intros Hne. rewrite lookup_insert_ne by congruence. exact Hb.
  - intros l Hl. apply lookup_insert_ne. congruence.
Qed.

Lemma operator_sub_assign_frame_witness :
  let int (n : Z) := Value.set_integer (Value.construct false) n in
  let objects : gmap nat Value.Value := <[0%nat := int 10]> (<[1%nat := int 3]> ∅) in
  exists objects' x',
    Value.operator_sub_assign objects 0%nat 1%nat = Some (objects', 0%nat)
    /\ objects' !! 0%nat = Some x'
    /\ Value.is_floating_point x' = false
    /\ Value.integer x' = 7
    /\ objects' !! 1%nat = Some (int 3).
Proof.
  cbv zeta.
  destruct (operator_sub_assign_frame
              (<[0%nat := Value.set_integer (Value.construct false) 10]>
                 (<[1%nat := Value.set_integer (Value.construct false) 3]> ∅))
              0%nat 1%nat
              (Value.set_integer (Value.construct false) 10)
              (Value.set_integer (Value.construct false) 3)
              ltac:(apply lookup_insert_eq)
              ltac:(rewrite lookup_insert_ne by discriminate; apply lookup_insert_eq))
    as (objects' & x' & Hcall & Ha & Htag & _ & Hint & Hb & _).
  exists objects', x'.
  split; [exact Hcall |].
  split; [exact Ha |].
  split; [exact Htag |].
  split; [rewrite Hint by reflexivity; reflexivity |].
  apply Hb. discriminate.
Defined.

(** ** [PMUCounter]: [start()] and [stop()] *)

Section PMUCounterFacts.

Import Exn PMUCounter.
Context {H : Type} `{CounterHandle H}.

(** One [try]/[catch] block ends normally, in one of two states. *)
Lemma try_capture_run (member : PMUCounter H -> H)
    (set_member : H -> PMUCounter H -> PMUCounter H)
    (set_accumulator : Z -> PMUCounter H -> PMUCounter H) (s : PMUCounter H) :
  try_capture member set_member set_accumulator s =
  (Ok tt,
   match get_value (member s) with
   | Ok n => set_member (reset (member (set_accumulator n s))) (set_accumulator n s)
   | Throw runtime_error => set_accumulator 0 s
   end).
Proof.
  unfold try_capture, try_catch, bind, seq, bind, call_get_value, assign, modify,
    call_reset.
  destruct (get_value (member s)) as [n | []]; reflexivity.
Qed.

Lemma start_run (s : PMUCounter H) :
  start s =
  (Ok tt,
   {| _pmu_cycles := reset (_pmu_cycles s);
      _pmu_instructions := reset (_pmu_instructions s);
      _pmu_cache_references := reset (_pmu_cache_references s);
      _pmu_cache_misses := reset (_pmu_cache_misses s);
      _pmu_branch_instructions := reset (_pmu_branch_instructions s);
      _pmu_branch_misses := reset (_pmu_branch_misses s);
      _cycles := _cycles s;
      _instructions := _instructions s;
      _cache_references := _cache_references s;
      _cache_misses := _cache_misses s;
      _branch_instructions := _branch_instructions s;
      _branch_misses := _branch_misses s |}).
Proof. reflexivity. Qed.

(** The state [stop()] ends in: every member is a function of the handle of
    its own counter. *)
Lemma stop_run (s : PMUCounter H) :
  stop s =
  (Ok tt,
   {| _pmu_cycles := Spec.handle_after_capture (_pmu_cycles s);
      _pmu_instructions := Spec.handle_after_capture (_pmu_instructions s);
      _pmu_cache_references := Spec.handle_after_capture (_pmu_cache_references s);
      _pmu_cache_misses := Spec.handle_after_capture (_pmu_cache_misses s);
      _pmu_branch_instructions := Spec.handle_after_capture (_pmu_branch_instructions s);
      _pmu_branch_misses := Spec.handle_after_capture (_pmu_branch_misses s);
      _cycles := Spec.captured_count (_pmu_cycles s);
      _instructions := Spec.captured_count (_pmu_instructions s);
      _cache_references := Spec.captured_count (_pmu_cache_references s);
      _cache_misses := Spec.captured_count (_pmu_cache_misses s);
      _branch_instructions := Spec.captured_count (_pmu_branch_instructions s);
      _branch_misses := Spec.captured_count (_pmu_branch_misses s) |}).
Proof.
  unfold stop, seq, bind. rewrite !try_capture_run. f_equal.
  destruct s as [h1 h2 h3 h4 h5 h6 a1 a2 a3 a4 a5 a6].
  unfold Spec.handle_after_capture, Spec.captured_count.
  cbn [_pmu_cycles _pmu_instructions _pmu_cache_references _pmu_cache_misses
       _pmu_branch_instructions _pmu_branch_misses].
  destruct (get_value h1) as [n1 | []]; cbn;
  destruct (get_value h2) as [n2 | []]; cbn;
  destruct (get_value h3) as [n3 | []]; cbn;
  destruct (get_value h4) as [n4 | []]; cbn;
  destruct (get_value h5) as [n5 | []]; cbn;
  destruct (get_value h6) as [n6 | []]; reflexivity.
Qed.

Lemma captured_after_capture (h : H) :
  Spec.captured h (Spec.handle_after_capture h) (Spec.captured_count h).
Proof.
  unfold Spec.captured, Spec.handle_after_capture, Spec.captured_count.
  destruct (get_value h) as [n | []]; split; reflexivity.
Qed.

(** C2: [stop()] always ends normally; for each of the six counters, alone:
    when its [get_value()] throws the runtime error its accumulator is zero
    and its handle is the one before the call, not reset; when it returns
    [n] its accumulator is [n] and its handle is reset.  What one counter
    gets depends on its own handle only. *)
Theorem stop_isolates_failures (s : PMUCounter H) :
  exists s' : PMUCounter H,
    stop s = (Ok tt, s')
    /\ Spec.captured (_pmu_cycles s) (_pmu_cycles s') (_cycles s')
    /\ Spec.captured (_pmu_instructions s) (_pmu_instructions s') (_instructions s')
    /\ Spec.captured (_pmu_cache_references s) (_pmu_cache_references s')
         (_cache_references s')
    /\ Spec.captured (_pmu_cache_misses s) (_pmu_cache_misses s') (_cache_misses s')
    /\ Spec.captured (_pmu_branch_instructions s) (_pmu_branch_instructions s')
         (_branch_instructions s')
    /\ Spec.captured (_pmu_branch_misses s) (_pmu_branch_misses s') (_branch_misses s').
Proof.
  eexists. split; [apply stop_run |].
  cbn [_pmu_cycles _pmu_instructions _pmu_cache_references _pmu_cache_misses
       _pmu_branch_instructions _pmu_branch_misses _cycles _instructions
       _cache_references _cache_misses _branch_instructions _branch_misses].
  repeat split; apply captured_after_capture.
Qed.

End PMUCounterFacts.

(** C7, as the code has it: [start()] ends normally, resets each of the six
    handles and writes no accumulator, so the mapping [measurements()]
    returns after it is the one it returned before; the [stop()] that
    follows overwrites all six accumulators from the handles, so that the
    state it ends in, and the mapping, are the same whatever the six
    accumulators held before [start()]: [stop()] on two instruments with
    the same six handles ends in the same state. *)
Theorem start_resets_handles_only {H : Type} `{CounterHandle H}
    (s : PMUCounter.PMUCounter H) :
  exists armed : PMUCounter.PMUCounter H,
    PMUCounter.start s = (Exn.Ok tt, armed)
    /\ PMUCounter._pmu_cycles armed = reset (PMUCounter._pmu_cycles s)
    /\ PMUCounter._pmu_instructions armed = reset (PMUCounter._pmu_instructions s)
    /\ PMUCounter._pmu_cache_references armed = reset (PMUCounter._pmu_cache_references s)
    /\ PMUCounter._pmu_cache_misses armed = reset (PMUCounter._pmu_cache_misses s)
    /\ PMUCounter._pmu_branch_instructions armed
       = reset (PMUCounter._pmu_branch_instructions s)
    /\ PMUCounter._pmu_branch_misses armed = reset (PMUCounter._pmu_branch_misses s)
    /\ PMUCounter._cycles armed = PMUCounter._cycles s
    /\ PMUCounter._instructions armed = PMUCounter._instructions s
    /\ PMUCounter._cache_references armed = PMUCounter._cache_references s
    /\ PMUCounter._cache_misses armed = PMUCounter._cache_misses s
    /\ PMUCounter._branch_instructions armed = PMUCounter._branch_instructions s
    /\ PMUCounter._branch_misses armed = PMUCounter._branch_misses s
    /\ PMUCounter.measurements armed = PMUCounter.measurements s
    /\ (forall c i cr cm bi bm : Z,
        let older :=
          PMUCounter.set_cycles c
            (PMUCounter.set_instructions i
               (PMUCounter.set_cache_references cr
                  (PMUCounter.set_cache_misses cm
                     (PMUCounter.set_branch_instructions bi
                        (PMUCounter.set_branch_misses bm s))))) in
        PMUCounter.stop (snd (PMUCounter.start older)) = PMUCounter.stop armed)
    /\ (forall s1 s2 : PMUCounter.PMUCounter H,
          PMUCounter._pmu_cycles s1 = PMUCounter._pmu_cycles s2 ->
          PMUCounter._pmu_instructions s1 = PMUCounter._pmu_instructions s2 ->
          PMUCounter._pmu_cache_references s1 = PMUCounter._pmu_cache_references s2 ->
          PMUCounter._pmu_cache_misses s1 = PMUCounter._pmu_cache_misses s2 ->
          PMUCounter._pmu_branch_instructions s1
          = PMUCounter._pmu_branch_instructions s2 ->
          PMUCounter._pmu_branch_misses s1 = PMUCounter._pmu_branch_misses s2 ->
          PMUCounter.stop s1 = PMUCounter.stop s2).
Proof.
  eexists. split; [apply start_run |].
  do 13 (split; [reflexivity |]).
  split.
  - intros c i cr cm bi bm older. subst older.
    rewrite !start_run, !stop_run. reflexivity.
  - intros s1 s2 E1 E2 E3 E4 E5 E6.
    rewrite !stop_run. now rewrite E1, E2, E3, E4, E5, E6.
Qed.

(** C7, as stated, does not hold: an instrument that captured 1000 cycles
    still holds and reports them after the next [start()], where an
    instrument that captured none reports none. *)
Lemma start_keeps_captured_data :
  let fresh :=
    Scenario.instrument (Stub.readable 0) (Stub.readable 0) (Stub.readable 0)
      (Stub.readable 0) (Stub.readable 0) (Stub.readable 0) in
  let captured := snd (Scenario.run (Scenario.workload 1000 500 40 4 30 3) fresh) in
  let rearmed := snd (PMUCounter.start captured) in
  PMUCounter._cycles captured = 1000
  /\ PMUCounter._cycles rearmed = 1000
  /\ Scenario.rendered "CPU cycles" rearmed = Some "1000"%string
  /\ Scenario.rendered "CPU cycles" (snd (PMUCounter.start fresh)) = Some "0"%string
  /\ PMUCounter.measurements rearmed
     <> PMUCounter.measurements (snd (PMUCounter.start fresh)).
Proof.
  cbv zeta.
  split; [reflexivity |]. split; [reflexivity |].
  split; [vm_compute; reflexivity |]. split; [vm_compute; reflexivity |].
  intros Heq.
  apply (f_equal (fun m => m !! "CPU cycles"%string)) in Heq.
  vm_compute in Heq. discriminate Heq.
Qed.

(** ** [PMUCounter]: [measurements()] *)

Section MeasurementsFacts.

Import PMUCounter.
Context {H : Type} `{CounterHandle H}.

Lemma measurements_lookup (s : PMUCounter H) :
  measurements s !! "CPU cycles"%string
    = Some (Measurement.of_integer (_cycles s) "cycles" [])
  /\ measurements s !! "CPU instructions"%string
    = Some (Measurement.of_integer (_instructions s) "instructions" [])
  /\ measurements s !! "Cache miss ratio"%string
    = Some (Measurement.of_floating
              (Spec.ratio (_cache_misses s) (_cache_references s)) "" [])
  /\ measurements s !! "Branch miss ratio"%string
    = Some (Measurement.of_floating
              (Spec.ratio (_branch_misses s) (_branch_instructions s)) "" []).
Proof.
  unfold measurements, Spec.ratio. rewrite !list_to_map_cons. cbn [fst snd].
  split; [| split; [| split]].
  - apply lookup_insert_eq.
  - rewrite lookup_insert_ne by discriminate. apply lookup_insert_eq.
  - do 2 (rewrite lookup_insert_ne by discriminate). apply lookup_insert_eq.
  - do 3 (rewrite lookup_insert_ne by discriminate). apply lookup_insert_eq.
Qed.

Lemma measurements_keys (s : PMUCounter H) :
  dom (measurements s)
  = ({[ "CPU cycles"%string; "CPU instructions"%string;
        "Cache miss ratio"%string; "Branch miss ratio"%string ]} : gset string)
  /\ size (measurements s) = 4%nat.
Proof.
  unfold measurements. split.
  - rewrite dom_list_to_map_L. cbn [fmap list_fmap fst list_to_set foldr]. set_solver.
  - rewrite map_size_list_to_map; [reflexivity |].
    cbn [fmap list_fmap fst].
    repeat (apply NoDup_cons; split;
            [intros Hin; apply list_elem_of_In in Hin; cbn [In] in Hin;
             intuition discriminate |]).
    apply NoDup_nil_2.
Qed.

End MeasurementsFacts.

(** An integer in the range of [long long] is stored and read back as
    itself, and rendered as itself. *)
Lemma of_integer_value (n : Z) (unit : string) :
  Int64.in_range n ->
  Value.integer (Measurement.value (Measurement.of_integer n unit [])) = n
  /\ Value.to_string (Measurement.value (Measurement.of_integer n unit []))
     = Text.put_integer n.
Proof.
  intros Hn.
  assert (Value.integer (Measurement.value (Measurement.of_integer n unit [])) = n)
    as Hint by (apply (int64_of_to_bits n Hn)).
  split; [exact Hint |].
  unfold Value.to_string, Value.put. now rewrite Hint.
Qed.

(** C3: whatever six accumulators the last [stop()] left, [measurements()]
    builds a mapping with exactly the four keys ["CPU cycles"],
    ["CPU instructions"], ["Cache miss ratio"] and ["Branch miss ratio"];
    the first two hold the integer-tagged measurements of [_cycles] and
    [_instructions] with the units ["cycles"] and ["instructions"], the last
    two the floating-tagged measurements of the two ratios with the empty
    unit; the mapping is a function of the accumulators, so every call
    builds the same one.  With 1000 cycles and 500 instructions counted
    between [start()] and [stop()], the two values render as ["1000"] and
    ["500"]. *)
Theorem measurements_four_entries {H : Type} `{CounterHandle H}
    (s : PMUCounter.PMUCounter H) :
  PMUCounter.measurements s !! "CPU cycles"%string
    = Some (Measurement.of_integer (PMUCounter._cycles s) "cycles" [])
  /\ PMUCounter.measurements s !! "CPU instructions"%string
    = Some (Measurement.of_integer (PMUCounter._instructions s) "instructions" [])
  /\ PMUCounter.measurements s !! "Cache miss ratio"%string
    = Some (Measurement.of_floating
              (Spec.ratio (PMUCounter._cache_misses s) (PMUCounter._cache_references s))
              "" [])
  /\ PMUCounter.measurements s !! "Branch miss ratio"%string
    = Some (Measurement.of_floating
              (Spec.ratio (PMUCounter._branch_misses s)
                 (PMUCounter._branch_instructions s)) "" [])
  /\ dom (PMUCounter.measurements s)
     = ({[ "CPU cycles"%string; "CPU instructions"%string;
           "Cache miss ratio"%string; "Branch miss ratio"%string ]} : gset string)
  /\ size (PMUCounter.measurements s) = 4%nat
  /\ (forall (n : Z) (unit : string),
        let m := Measurement.of_integer n unit [] in
        Value.is_floating_point (Measurement.value m) = false
        /\ Value.v (Measurement.value m) = Int64.to_bits n
        /\ Measurement.unit m = unit)
  /\ (forall (x : Double.double) (unit : string),
        let m := Measurement.of_floating x unit [] in
        Value.is_floating_point (Measurement.value m) = true
        /\ Value.v (Measurement.value m) = Double.to_bits x
        /\ Measurement.unit m = unit)
  /\ (forall s' : PMUCounter.PMUCounter H,
        PMUCounter._cycles s' = PMUCounter._cycles s ->
        PMUCounter._instructions s' = PMUCounter._instructions s ->
        PMUCounter._cache_references s' = PMUCounter._cache_references s ->
        PMUCounter._cache_misses s' = PMUCounter._cache_misses s ->
        PMUCounter._branch_instructions s' = PMUCounter._branch_instructions s ->
        PMUCounter._branch_misses s' = PMUCounter._branch_misses s ->
        PMUCounter.measurements s' = PMUCounter.measurements s)
  /\ (let fresh :=
        Scenario.instrument (Stub.readable 0) (Stub.readable 0) (Stub.readable 0)
          (Stub.readable 0) (Stub.readable 0) (Stub.readable 0) in
      exists captured,
        Scenario.run (Scenario.workload 1000 500 40 4 30 3) fresh = (Exn.Ok tt, captured)
        /\ PMUCounter._cycles captured = 1000
        /\ PMUCounter._instructions captured = 500
        /\ Scenario.rendered "CPU cycles" captured = Some "1000"%string
        /\ Scenario.rendered "CPU instructions" captured = Some "500"%string).
Proof.
  destruct (measurements_lookup s) as (Hc & Hi & Hcache & Hbranch).
  destruct (measurements_keys s) as (Hdom & Hsize).
  do 6 (split; [assumption |]).
  split; [intros n unit m; subst m; repeat split |].
  split; [intros x unit m; subst m; repeat split |].
  split.
  - intros s' E1 E2 E3 E4 E5 E6. unfold PMUCounter.measurements.
    now rewrite E1, E2, E3, E4, E5, E6.
  - cbv zeta. eexists. split; [vm_compute; reflexivity |].
    split; [reflexivity |]. split; [reflexivity |].
    split; vm_compute; reflexivity.
Qed.

(** ** Division by zero in [double] *)

Lemma double_of_Z_zero : Double.of_Z 0 = S754_zero false.
Proof. reflexivity. Qed.

(** Any double divided by a zero is an infinity or a NaN. *)
Lemma double_div_zero_special (x : Double.double) (s : bool) :
  Spec.is_special (Double.div x (S754_zero s)) = true.
Proof. destruct x; reflexivity. Qed.

(** An infinity and the NaN are read back from storage as they were
    stored. *)
Lemma double_special_stored (x : Double.double) :
  Spec.is_special x = true -> Double.of_bits (Double.to_bits x) = x.
Proof.
  destruct x as [s | s | | s m e]; try discriminate; intros _;
    try destruct s; vm_compute; reflexivity.
Qed.

Lemma ratio_zero_special (misses : Z) : Spec.is_special (Spec.ratio misses 0) = true.
Proof. unfold Spec.ratio. rewrite double_of_Z_zero. apply double_div_zero_special. Qed.

Lemma of_floating_special (x : Double.double) (unit : string) :
  Spec.is_special x = true ->
  Value.floating_point (Measurement.value (Measurement.of_floating x unit [])) = x.
Proof. intros Hx. now apply double_special_stored. Qed.

(** C4: when the accumulator of the cache references (of the branch
    instructions) is zero, the entry ["Cache miss ratio"]
    (["Branch miss ratio"]) of [measurements()] is the floating-tagged
    measurement of the quotient by zero, an infinity or a NaN, which is read
    from the stored value as the division produced it.  With a counter of
    cache references that cannot be read and 100 cache misses counted,
    [start()] and [stop()] end normally, zero references and 100 misses are
    captured, and the ratio is plus infinity. *)
Theorem zero_reference_ratio_unguarded {H : Type} `{CounterHandle H}
    (s : PMUCounter.PMUCounter H) :
  (PMUCounter._cache_references s = 0 ->
   exists m,
     PMUCounter.measurements s !! "Cache miss ratio"%string = Some m
     /\ m = Measurement.of_floating (Spec.ratio (PMUCounter._cache_misses s) 0) "" []
     /\ Value.is_floating_point (Measurement.value m) = true
     /\ Value.floating_point (Measurement.value m)
        = Double.div (Double.of_Z (PMUCounter._cache_misses s)) (S754_zero false)
     /\ Spec.is_special (Value.floating_point (Measurement.value m)) = true)
  /\ (PMUCounter._branch_instructions s = 0 ->
      exists m,
        PMUCounter.measurements s !! "Branch miss ratio"%string = Some m
        /\ m = Measurement.of_floating (Spec.ratio (PMUCounter._branch_misses s) 0) "" []
        /\ Value.is_floating_point (Measurement.value m) = true
        /\ Value.floating_point (Measurement.value m)
           = Double.div (Double.of_Z (PMUCounter._branch_misses s)) (S754_zero false)
        /\ Spec.is_special (Value.floating_point (Measurement.value m)) = true)
  /\ (let fresh :=
        Scenario.instrument (Stub.readable 0) (Stub.readable 0) Stub.unreadable
          (Stub.readable 0) (Stub.readable 0) (Stub.readable 0) in
      exists captured m,
        Scenario.run (Scenario.workload 1000 500 40 100 30 3) fresh
        = (Exn.Ok tt, captured)
        /\ PMUCounter._cache_references captured = 0
        /\ PMUCounter._cache_misses captured = 100
        /\ PMUCounter.measurements captured !! "Cache miss ratio"%string = Some m
        /\ Value.floating_point (Measurement.value m) = S754_infinity false
        /\ Scenario.rendered "Cache miss ratio" captured = Some "inf"%string).
Proof.
  destruct (measurements_lookup s) as (_ & _ & Hcache & Hbranch).
  split; [| split].
  - intros Hzero. rewrite Hzero in Hcache. eexists. split; [exact Hcache |].
    split; [reflexivity |]. split; [reflexivity |].
    rewrite of_floating_special by apply ratio_zero_special.
    split; [reflexivity | apply ratio_zero_special].
  - intros Hzero. rewrite Hzero in Hbranch. eexists. split; [exact Hbranch |].
    split; [reflexivity |]. split; [reflexivity |].
    rewrite of_floating_special by apply ratio_zero_special.
    split; [reflexivity | apply ratio_zero_special].
  - cbv zeta. do 2 eexists.
    split; [vm_compute; reflexivity |].
    split; [reflexivity |]. split; [reflexivity |].
    split; [vm_compute; reflexivity |].
    split; vm_compute; reflexivity.
Qed.

Lemma zero_reference_ratio_unguarded_witness :
  let s :=
    PMUCounter.set_cache_misses 100
      (Scenario.instrument (Stub.readable 0) (Stub.readable 0) Stub.unreadable
         (Stub.readable 0) (Stub.readable 0) (Stub.readable 0)) in
  (exists m,
     PMUCounter.measurements s !! "Cache miss ratio"%string = Some m
     /\ Value.floating_point (Measurement.value m) = S754_infinity false)
  /\ (exists m,
     PMUCounter.measurements s !! "Branch miss ratio"%string = Some m
     /\ Value.floating_point (Measurement.value m) = S754_nan).
Proof.
  cbv zeta.
  destruct (zero_reference_ratio_unguarded
              (PMUCounter.set_cache_misses 100
                 (Scenario.instrument (Stub.readable 0) (Stub.readable 0) Stub.unreadable
                    (Stub.readable 0) (Stub.readable 0) (Stub.readable 0))))
    as (Hcache & Hbranch & _).
  destruct (Hcache eq_refl) as (m & Hm & _ & _ & Hvalue & _).
  destruct (Hbranch eq_refl) as (m' & Hm' & _ & _ & Hvalue' & _).
  split; [exists m | exists m']; (split; [assumption |]).
  - rewrite Hvalue. reflexivity.
  - rewrite Hvalue'. reflexivity.
Defined.

(** ** Conversion of a non-zero integer to [double]

    Rounding an integer never underflows: the double it converts to is a
    finite non-zero number or an infinity. *)

Lemma digits2_pos_lower (m : positive) : 2 ^ (Z.pos (digits2_pos m) - 1) <= Z.pos m.
Proof.
  induction m as [p IH | p IH |]; cbn [digits2_pos].
  - rewrite Pos2Z.inj_succ.
    replace (Z.succ (Z.pos (digits2_pos p)) - 1) with (Z.succ (Z.pos (digits2_pos p) - 1))
      by lia.
    rewrite Z.pow_succ_r by lia. lia.
  - rewrite Pos2Z.inj_succ.
    replace (Z.succ (Z.pos (digits2_pos p)) - 1) with (Z.succ (Z.pos (digits2_pos p) - 1))
      by lia.
    rewrite Z.pow_succ_r by lia. lia.
  - reflexivity.
Qed.

Lemma pow2_xO (p : positive) : 2 ^ Z.pos p~0 = 2 ^ Z.pos p * 2 ^ Z.pos p.
Proof. rewrite <- Z.pow_add_r by lia. f_equal. lia. Qed.

Lemma pow2_xI (p : positive) : 2 ^ Z.pos p~1 = 2 * (2 ^ Z.pos p * 2 ^ Z.pos p).
Proof. rewrite <- Z.pow_add_r, <- Z.pow_succ_r by lia. f_equal. lia. Qed.

Lemma shr_1_mantissa (mrs : shr_record) :
  0 <= shr_m mrs -> shr_m (shr_1 mrs) = shr_m mrs / 2.
Proof.
  destruct mrs as [m r s]. cbn [shr_m]. intros Hm.
  destruct m as [| [p | p |] | p]; cbn [shr_1 shr_m]; try lia.
  - reflexivity.
  - apply (Z.div_unique (Z.pos p~1) 2 (Z.pos p) 1); lia.
  - apply (Z.div_unique (Z.pos p~0) 2 (Z.pos p) 0); lia.
  - reflexivity.
Qed.

Lemma iter_shr_1_mantissa (p : positive) (mrs : shr_record) :
  0 <= shr_m mrs -> shr_m (SpecFloat.iter_pos shr_1 p mrs) = shr_m mrs / 2 ^ Z.pos p.
Proof.
  revert mrs. induction p as [p IH | p IH |]; intros mrs Hm; cbn [SpecFloat.iter_pos].
  - assert (0 <= shr_m (shr_1 mrs)) as H1
      by (rewrite shr_1_mantissa by exact Hm; apply Z.div_pos; lia).
    assert (0 <= shr_m (SpecFloat.iter_pos shr_1 p (shr_1 mrs))) as H2
      by (rewrite IH by exact H1; apply Z.div_pos; [exact H1 | lia]).
    rewrite IH by exact H2. rewrite IH by exact H1. rewrite shr_1_mantissa by exact Hm.
    rewrite !Z.div_div by lia. f_equal.
    rewrite pow2_xI. lia.
  - assert (0 <= shr_m (SpecFloat.iter_pos shr_1 p mrs)) as H2
      by (rewrite IH by exact Hm; apply Z.div_pos; [exact Hm | lia]).
    rewrite IH by exact H2. rewrite IH by exact Hm.
    rewrite !Z.div_div by lia. f_equal.
    rewrite pow2_xO. lia.
  - rewrite shr_1_mantissa by exact Hm. reflexivity.
Qed.

Lemma shr_record_of_loc_mantissa (m : Z) (l : location) :
  shr_m (shr_record_of_loc m l) = m.
Proof. destruct l as [| []]; reflexivity. Qed.

(** The shift to the canonical exponent keeps a positive mantissa positive,
    from the least exponent of [double] on. *)
Lemma shr_fexp_positive (m : positive) (e : Z) (l : location) :
  -1074 <= e ->
  0 < shr_m (fst (shr_fexp Double.prec Double.emax (Z.pos m) e l))
  /\ -1074 <= snd (shr_fexp Double.prec Double.emax (Z.pos m) e l).
Proof.
  intros He. unfold shr_fexp, shr.
  destruct (fexp Double.prec Double.emax (Zdigits2 (Z.pos m) + e) - e) as [| p | p] eqn:Hn;
    cbn [fst snd]; rewrite ?shr_record_of_loc_mantissa; try lia.
  rewrite iter_shr_1_mantissa by (rewrite shr_record_of_loc_mantissa; lia).
  rewrite shr_record_of_loc_mantissa. split; [| lia].
  apply Z.div_str_pos. split; [lia |].
  pose proof (digits2_pos_lower m) as Hlow.
  eapply Z.le_trans; [| exact Hlow].
  apply Z.pow_le_mono_r; [lia |].
  unfold fexp, emin, Double.prec, Double.emax in Hn. cbn [Zdigits2] in Hn. lia.
Qed.

Lemma round_nearest_even_lower (m : Z) (l : location) : m <= round_nearest_even m l.
Proof.
  unfold round_nearest_even. destruct l as [| []]; try lia.
  destruct (Z.even m); lia.
Qed.

Lemma binary_round_aux_nonzero (sx : bool) (m : positive) (e : Z) (l : location) :
  -1074 <= e ->
  Double.is_nonzero_number (binary_round_aux Double.prec Double.emax sx (Z.pos m) e l) = true.
Proof.
  intros He. unfold binary_round_aux.
  destruct (shr_fexp_positive m e l He) as [Hm1 He1].
  destruct (shr_fexp Double.prec Double.emax (Z.pos m) e l) as [mrs1 e1].
  cbn [fst snd] in Hm1, He1.
  pose proof (round_nearest_even_lower (shr_m mrs1) (loc_of_shr_record mrs1)) as Hr.
  destruct (round_nearest_even (shr_m mrs1) (loc_of_shr_record mrs1)) as [| r | r];
    try lia.
  destruct (shr_fexp_positive r e1 loc_Exact He1) as [Hm2 _].
  destruct (shr_fexp Double.prec Double.emax (Z.pos r) e1 loc_Exact) as [mrs2 e2].
  cbn [fst] in Hm2.
  destruct (shr_m mrs2) as [| m2 | m2]; try lia.
  destruct (e2 <=? Double.emax - Double.prec); reflexivity.
Qed.

Lemma binary_round_nonzero (sx : bool) (m : positive) :
  Double.is_nonzero_number (binary_round Double.prec Double.emax sx m 0) = true.
Proof.
  unfold binary_round, shl_align.
  destruct (fexp Double.prec Double.emax (Z.pos (digits2_pos m) + 0) - 0)
    as [| d | d] eqn:Hd; apply binary_round_aux_nonzero; try lia.
  unfold fexp, emin, Double.prec, Double.emax. lia.
Qed.

Lemma double_of_Z_nonzero (n : Z) :
  n <> 0 -> Double.is_nonzero_number (Double.of_Z n) = true.
Proof.
  intros Hn. unfold Double.of_Z, binary_normalize.
  destruct n as [| p | p]; [congruence | |]; apply binary_round_nonzero.
Qed.

(** ** The storage of a [double]

    A double that was stored is read back as it was: the two members of the
    union of a [Value] describe the same eight bytes. *)

Lemma digits2_pos_upper (m : positive) : Z.pos m < 2 ^ Z.pos (digits2_pos m).
Proof.
  induction m as [p IH | p IH |]; cbn [digits2_pos].
  - rewrite Pos2Z.inj_succ, Z.pow_succ_r by lia. lia.
  - rewrite Pos2Z.inj_succ, Z.pow_succ_r by lia. lia.
  - reflexivity.
Qed.

(** The three fields of the eight bytes. *)
Lemma double_of_bits_fields (s : bool) (E f : Z) :
  0 <= E < 2048 -> 0 <= f < 2 ^ 52 ->
  Double.of_bits (Double.sign_bit s + E * Double.hidden_bit + f) =
  if E =? 0 then
    match f with
    | Z.pos m => S754_finite s m (1 - Double.exponent_bias)
    | _ => S754_zero s
    end
  else if E =? Double.exponent_mask then
    if f =? 0 then S754_infinity s else S754_nan
  else
    match f + Double.hidden_bit with
    | Z.pos m => S754_finite s m (E - Double.exponent_bias)
    | _ => S754_nan
    end.
Proof.
  intros HE Hf. unfold Double.of_bits.
  set (u := Double.sign_bit s + E * Double.hidden_bit + f).
  assert (0 <= u < 2 ^ 64) as Hu
    by (subst u; unfold Double.sign_bit, Double.hidden_bit; destruct s; lia).
  rewrite (Z.mod_small u) by exact Hu.
  assert (Z.testbit u 63 = s) as ->.
  { rewrite Z.testbit_eqb by lia.
    subst u. unfold Double.sign_bit, Double.hidden_bit.
    destruct s; [apply Z.eqb_eq | apply Z.eqb_neq];
      Z.to_euclidean_division_equations; lia. }
  assert (Z.land (Z.shiftr u Double.fraction_bits) Double.exponent_mask = E) as ->.
  { change Double.exponent_mask with (Z.ones 11).
    rewrite Z.land_ones, Z.shiftr_div_pow2 by (unfold Double.fraction_bits; lia).
    subst u. unfold Double.sign_bit, Double.hidden_bit, Double.fraction_bits.
    destruct s; Z.to_euclidean_division_equations; lia. }
  assert (Z.land u (Double.hidden_bit - 1) = f) as ->.
  { change (Double.hidden_bit - 1) with (Z.ones 52).
    rewrite Z.land_ones by lia.
    subst u. unfold Double.sign_bit, Double.hidden_bit.
    destruct s; Z.to_euclidean_division_equations; lia. }
  reflexivity.
Qed.

Lemma double_stored_read_back (x : Double.double) :
  valid_binary Double.prec Double.emax x = true ->
  Double.of_bits (Double.to_bits x) = x.
Proof.
  destruct x as [s | s | | s m e]; intros Hvalid.
  - destruct s; vm_compute; reflexivity.
  - destruct s; vm_compute; reflexivity.
  - vm_compute; reflexivity.
  - cbn [valid_binary] in Hvalid. unfold bounded, canonical_mantissa in Hvalid.
    apply andb_prop in Hvalid as [Hcanonical Hmax].
    apply Z.eqb_eq in Hcanonical. apply Z.leb_le in Hmax.
    unfold fexp, emin, Double.prec, Double.emax in Hcanonical, Hmax.
    pose proof (digits2_pos_lower m) as Hlow.
    pose proof (digits2_pos_upper m) as Hup.
    unfold Double.to_bits.
    destruct (Z.ltb_spec (Z.pos m) Double.hidden_bit) as [Hsub | Hnormal].
    + unfold Double.hidden_bit in Hsub.
      assert (Z.pos (digits2_pos m) <= 52) as Hdigits.
      { destruct (Z.le_gt_cases (Z.pos (digits2_pos m)) 52) as [Hle | Hgt]; [exact Hle |].
        pose proof (Z.pow_le_mono_r 2 52 (Z.pos (digits2_pos m) - 1) ltac:(lia) ltac:(lia)).
        lia. }
      assert (e = -1074) as -> by lia.
      replace (Double.sign_bit s + Z.pos m)
        with (Double.sign_bit s + 0 * Double.hidden_bit + Z.pos m) by lia.
      rewrite double_of_bits_fields by lia. reflexivity.
    + unfold Double.hidden_bit in Hnormal.
      assert (Z.pos (digits2_pos m) = 53) as Hdigits.
      { destruct (Z.le_gt_cases (Z.pos (digits2_pos m)) 52) as [Hle | Hgt].
        - pose proof (Z.pow_le_mono_r 2 (Z.pos (digits2_pos m)) 52 ltac:(lia) Hle). lia.
        - lia. }
      rewrite Hdigits in Hup, Hcanonical.
      rewrite double_of_bits_fields by (unfold Double.exponent_bias, Double.hidden_bit; lia).
      unfold Double.exponent_bias, Double.exponent_mask, Double.hidden_bit.
      destruct (Z.eqb_spec (e + 1075) 0) as [Hz |]; [lia |].
      destruct (Z.eqb_spec (e + 1075) 2047) as [Hz |]; [lia |].
      replace (Z.pos m - 2 ^ 52 + 2 ^ 52) with (Z.pos m) by lia.
      f_equal. lia.
Qed.

Lemma floating_point_set_valid (x : Value.Value) (f : Double.double) :
  valid_binary Double.prec Double.emax f = true ->
  Value.floating_point (Value.set_floating_point x f) = f.
Proof. apply double_stored_read_back. Qed.

(** ** [relative_standard_deviation] *)

Lemma hundred_finite : Value.hundred = S754_finite false 7036874417766400 (-46).
Proof. vm_compute. reflexivity. Qed.

Lemma percentage_of_zero (variance mean : Double.double) :
  Double.is_zero variance = true ->
  Double.is_nonzero_number mean = true ->
  Double.is_zero (Spec.percentage_of_mean variance mean) = true.
Proof.
  unfold Spec.percentage_of_mean. fold Value.hundred. rewrite hundred_finite.
  destruct variance as [sv | | |]; try discriminate.
  destruct mean as [| sm | | sm m e]; try discriminate; reflexivity.
Qed.

Lemma relative_standard_deviation_as_double (variance mean : Value.Value) :
  Value.is_floating_point variance = Value.is_floating_point mean ->
  Value.relative_standard_deviation variance mean
  = Spec.percentage_of_mean (Spec.as_double variance) (Spec.as_double mean).
Proof.
  intros Htag.
  unfold Value.relative_standard_deviation, Spec.percentage_of_mean, Spec.as_double.
  rewrite <- Htag. destruct (Value.is_floating_point variance); reflexivity.
Qed.

(** C5: for [variance] and [mean] of one tag, the result is the double
    [100 * sqrt(variance) / mean], computed on the two operands as doubles:
    their floating members, or their integer members converted to [double];
    it is a zero whenever [variance] is zero and [mean] is a number other
    than zero. *)
Theorem relative_standard_deviation_formula (variance mean : Value.Value) :
  Value.is_floating_point variance = Value.is_floating_point mean ->
  Value.relative_standard_deviation variance mean
  = Double.div
      (Double.mul (Double.of_Z 100) (Double.sqrt (Spec.as_double variance)))
      (Spec.as_double mean)
  /\ (Value.is_floating_point variance = false ->
      Spec.as_double variance = Double.of_Z (Value.integer variance)
      /\ Spec.as_double mean = Double.of_Z (Value.integer mean))
  /\ (Value.is_floating_point variance = true ->
      Spec.as_double variance = Value.floating_point variance
      /\ Spec.as_double mean = Value.floating_point mean)
  /\ (Spec.is_zero variance = true ->
      Spec.is_nonzero_number mean = true ->
      Double.is_zero (Value.relative_standard_deviation variance mean) = true).
Proof.
  intros Htag.
  split; [now apply relative_standard_deviation_as_double |].
  split; [| split].
  - intros Hint. unfold Spec.as_double. now rewrite <- Htag, Hint.
  - intros Hflt. unfold Spec.as_double. now rewrite <- Htag, Hflt.
  - intros Hzero Hmean.
    rewrite relative_standard_deviation_as_double by exact Htag.
    apply percentage_of_zero.
    + unfold Spec.is_zero in Hzero. unfold Spec.as_double.
      destruct (Value.is_floating_point variance); [exact Hzero |].
      apply Z.eqb_eq in Hzero. now rewrite Hzero.
    + unfold Spec.is_nonzero_number in Hmean. unfold Spec.as_double.
      destruct (Value.is_floating_point mean); [exact Hmean |].
      apply double_of_Z_nonzero. apply negb_true_iff, Z.eqb_neq in Hmean. exact Hmean.
Qed.

Lemma relative_standard_deviation_formula_witness :
  let int (n : Z) := Value.set_integer (Value.construct false) n in
  Value.relative_standard_deviation (int 4) (int 8)
  = Double.div (Double.mul (Double.of_Z 100) (Double.sqrt (Double.of_Z 4))) (Double.of_Z 8)
  /\ Value.relative_standard_deviation (int 4) (int 8) = Double.of_Z 25
  /\ Double.is_zero (Value.relative_standard_deviation (int 0) (int (-7))) = true.
Proof.
  cbv zeta.
  destruct (relative_standard_deviation_formula
              (Value.set_integer (Value.construct false) 4)
              (Value.set_integer (Value.construct false) 8) eq_refl)
    as (Hformula & _).
  destruct (relative_standard_deviation_formula
              (Value.set_integer (Value.construct false) 0)
              (Value.set_integer (Value.construct false) (-7)) eq_refl)
    as (_ & _ & _ & Hzero).
  split; [exact Hformula |].
  split; [vm_compute; reflexivity |].
  apply Hzero; reflexivity.
Defined.

(** ** [operator/] *)

Lemma floating_point_set_special (x : Value.Value) (f : Double.double) :
  Spec.is_special f = true ->
  Value.floating_point (Value.set_floating_point x f) = f.
Proof. intros Hf. now apply double_special_stored. Qed.

Lemma int64_quot_in_range (a n : Z) :
  Int64.in_range a -> n <> 0 -> ~ (a = Int64.min_signed /\ n = -1) ->
  Int64.in_range (Z.quot a n).
Proof.
  unfold Int64.in_range, Int64.min_signed, Int64.max_signed, Int64.half_modulus.
  intros Ha Hn Hover.
  pose proof (Z.quot_rem a n Hn) as Hqr.
  pose proof (Z.rem_bound_abs a n Hn) as Hr.
  pose proof (Z.rem_sign_nz a n) as Hsign.
  Z.to_euclidean_division_equations. nia.
Qed.

(** C6, as stated, does not hold: the integer division by zero has no
    result, neither a number nor a floating special value. *)
Lemma operator_div_integer_by_zero :
  Value.operator_div (Value.set_integer (Value.construct false) 5) 0 = None
  /\ ~ (forall (a : Value.Value) (n : Z), exists r, Value.operator_div a n = Some r).
Proof.
  split; [reflexivity |].
  intros Htotal.
  destruct (Htotal (Value.set_integer (Value.construct false) 5) 0) as [r Hr].
  discriminate Hr.
Qed.

(** C6, as the code has it: the division of a floating-tagged [Value] by
    any integer has a result, floating-tagged, whose storage holds the
    quotient of the floating member by the divisor as a double; for the
    divisor zero that quotient, read back from the result, is an infinity or
    a NaN.  The division of an integer-tagged [Value] has a result, the
    integer-tagged truncated quotient, when the divisor is not zero and the
    quotient fits in 64 bits; it has none when the divisor is zero. *)
Theorem operator_div_defined (a : Value.Value) (n : Z) :
  (Value.is_floating_point a = true ->
   exists r,
     Value.operator_div a n = Some r
     /\ Value.is_floating_point r = true
     /\ Value.v r = Double.to_bits (Double.div (Value.floating_point a) (Double.of_Z n))
     /\ (n = 0 ->
         Value.floating_point r = Double.div (Value.floating_point a) (S754_zero false)
         /\ Spec.is_special (Value.floating_point r) = true))
  /\ (Value.is_floating_point a = false ->
      n <> 0 ->
      ~ (Value.integer a = Int64.min_signed /\ n = -1) ->
      exists r,
        Value.operator_div a n = Some r
        /\ Value.is_floating_point r = false
        /\ Value.integer r = Z.quot (Value.integer a) n)
  /\ (Value.is_floating_point a = false -> n = 0 -> Value.operator_div a n = None).
Proof.
  split; [| split].
  - intros Htag. unfold Value.operator_div. rewrite Htag.
    eexists. split; [reflexivity |]. split; [reflexivity |]. split; [reflexivity |].
    intros ->. rewrite double_of_Z_zero.
    rewrite floating_point_set_special by apply double_div_zero_special.
    split; [reflexivity | apply double_div_zero_special].
  - intros Htag Hn Hover. unfold Value.operator_div, Int64.div. rewrite Htag.
    destruct (Z.eqb_spec n 0) as [| _]; [contradiction |].
    destruct (Z.eqb_spec (Value.integer a) Int64.min_signed) as [Hmin |];
      [destruct (Z.eqb_spec n (-1)) as [Hminus |]; [tauto |] |];
      cbn [andb option_map];
      (eexists; split; [reflexivity |]; split; [reflexivity |];
       rewrite int64_integer_set; apply int64_wrap_in_range;
       apply int64_quot_in_range;
       [apply int64_of_bits_in_range | assumption | assumption]).
  - intros Htag ->. unfold Value.operator_div. now rewrite Htag.
Qed.

Lemma operator_div_defined_witness :
  let int (n : Z) := Value.set_integer (Value.construct false) n in
  let flt (n : Z) := Value.set_floating_point (Value.construct true) (Double.of_Z n) in
  (exists r, Value.operator_div (flt 5) 0 = Some r
             /\ Value.floating_point r = S754_infinity false)
  /\ (exists r, Value.operator_div (int (-7)) 2 = Some r /\ Value.integer r = -3)
  /\ Value.operator_div (int 5) 0 = None.
Proof.
  cbv zeta.
  destruct (operator_div_defined
              (Value.set_floating_point (Value.construct true) (Double.of_Z 5)) 0)
    as (Hflt & _ & _).
  destruct (operator_div_defined (Value.set_integer (Value.construct false) (-7)) 2)
    as (_ & Hint & _).
  destruct (operator_div_defined (Value.set_integer (Value.construct false) 5) 0)
    as (_ & _ & Hzero).
  destruct (Hflt eq_refl) as (r & Hr & _ & _ & Hspecial).
  destruct (Hint eq_refl ltac:(discriminate) ltac:(intros [_ Hn]; discriminate Hn))
    as (r' & Hr' & _ & Hquot).
  split; [| split].
  - exists r. split; [exact Hr |]. destruct (Hspecial eq_refl) as [-> _]. reflexivity.
  - exists r'. split; [exact Hr' |]. rewrite Hquot. reflexivity.
  - apply Hzero; reflexivity.
Defined.
